(** * Environment resolution of the Claude agent SDK

  A shallow embedding of [claude_agent_sdk/_internal/env.py] and of the
  configuration objects its tests exercise, with the properties the
  specification states about them.

  Python code runs against a process: the table [os.environ] and the
  mutable dictionaries that callers hold references to.  The embedding
  threads that process through every operation and lets an operation
  raise, so that "does not raise" and "does not write" are statements
  about the code and not about the notation. *)

From Stdlib Require Import QArith Ascii String DecimalString DecimalPos DecimalN.
From stdpp Require Import base option gmap strings fin_maps.

Local Open Scope string_scope.

(** ** Python values, the process and the monad of Python code *)

Module Py.

(** A [str] is the string of its bytes, the form in which [os.environ]
    keeps names and values; a [dict[str, str]] is a finite map from
    strings to strings, [gmap string string]. *)

(** The identity of a mutable object. *)
Definition loc := positive.

(** What a piece of Python code can read and write: [os.environ] and the
    dictionaries that live on the heap. *)
Record process := Process {
  os_environ : gmap string string;
  heap : gmap loc (gmap string string)
}.

Inductive exn :=
| TypeError
| KeyError (key : string)
| InvalidConfigValue (text : string)
| DanglingReference (l : loc).

Inductive result (A : Type) :=
| Ok (a : A)
| Raise (e : exn).
Arguments Ok {A} a.
Arguments Raise {A} e.

(** A computation returns or raises, and leaves a process behind. *)
Definition M (A : Type) : Type := process → result A * process.

Definition ret {A} (a : A) : M A := λ σ, (Ok a, σ).
Definition raise {A} (e : exn) : M A := λ σ, (Raise e, σ).
Definition bind {A B} (m : M A) (k : A → M B) : M B :=
  λ σ, match m σ with
       | (Ok a, σ') => k a σ'
       | (Raise e, σ') => (Raise e, σ')
       end.

#[global] Instance M_ret : MRet M := @ret.
#[global] Instance M_bind : MBind M := λ A B k m, bind m k.

(** The value and the final process of a run. *)
Definition returned {A} (m : M A) (σ : process) : result A := (m σ).1.
Definition after {A} (m : M A) (σ : process) : process := (m σ).2.

(** *** Dictionaries on the heap *)

(** A parameter of type [dict[str, str] | None]. *)
Definition optional_dict := option loc.

Definition deref (l : loc) : M (gmap string string) :=
  λ σ, match heap σ !! l with
       | Some d => (Ok d, σ)
       | None => (Raise (DanglingReference l), σ)
       end.

(** [bool(v)]: [None] and the empty dictionary are false. *)
Definition truthy (v : optional_dict) : M bool :=
  match v with
  | None => mret false
  | Some l => d ← deref l; mret (bool_decide (d ≠ ∅))
  end.

(** [key in v]: [None] is not a container. *)
Definition contains (key : string) (v : optional_dict) : M bool :=
  match v with
  | None => raise TypeError
  | Some l => d ← deref l; mret (bool_decide (is_Some (d !! key)))
  end.

(** [v[key]]. *)
Definition getitem (v : optional_dict) (key : string) : M string :=
  match v with
  | None => raise TypeError
  | Some l =>
      d ← deref l;
      match d !! key with
      | Some x => mret x
      | None => raise (KeyError key)
      end
  end.

(** [d[key] = value] on a live dictionary. *)
Definition setitem (l : loc) (key value : string) : M unit :=
  λ σ, match heap σ !! l with
       | Some d =>
           (Ok (), Process (os_environ σ) (<[l := <[key := value]> d]> (heap σ)))
       | None => (Raise (DanglingReference l), σ)
       end.

(** A new dictionary object with the given content. *)
Definition alloc (d : gmap string string) : M loc :=
  λ σ, let l := fresh (dom (heap σ)) in
       (Ok l, Process (os_environ σ) (<[l := d]> (heap σ))).

(** [os.environ.get(key, default)]. *)
Definition environ_get (key default : string) : M string :=
  λ σ, (Ok (match os_environ σ !! key with
            | Some x => x
            | None => default
            end), σ).

(** [a and b] in a condition: [b] is evaluated only when [a] is true. *)
Definition and_then (a b : M bool) : M bool :=
  t ← a; if t : bool then b else mret false.

(** The reference of a well-formed call points to a live object. *)
Definition live (σ : process) (v : optional_dict) : Prop :=
  match v with
  | None => True
  | Some l => is_Some (heap σ !! l)
  end.

#[global] Instance live_dec σ v : Decision (live σ v).
Proof. destruct v; simpl; apply _. Defined.

(** The mapping a parameter denotes, [None] for Python's [None]. *)
Definition content (σ : process) (v : optional_dict) : option (gmap string string) :=
  l ← v; heap σ !! l.

End Py.

(** ** [_internal/env.py] *)

Module Env.
Import Py.

(** [resolve_env(key, options_env, default)]:
<<
    if options_env and key in options_env:
        return options_env[key]
    return os.environ.get(key, default)
>> *)
Definition resolve_env (key : string) (options_env : optional_dict)
    (default : string) : M string :=
  c ← and_then (truthy options_env) (contains key options_env);
  if c : bool then getitem options_env key else environ_get key default.

(** The resolver in the specification's words (section 4.1): the value of
    the override map when the map is there and has the key, else the
    value of the ambient source when it has the key, else the default. *)
Definition resolve (K : string) (O : option (gmap string string))
    (A : gmap string string) (D : string) : string :=
  match O ≫= (.!! K) with
  | Some v => v
  | None =>
      match A !! K with
      | Some a => a
      | None => D
      end
  end.

End Env.

(** ** The options object *)

Module Types.
Import Py.

(** Modelled from the spec: the class [ClaudeAgentOptions] of
    [claude_agent_sdk/types.py], which is not among the sources.  The
    fields are those of section 3 (OptionsConfig) under the names the
    tests read them by; [env] is a reference to the mapping the instance
    owns. *)
Record ClaudeAgentOptions := {
  api_key : option string;
  base_url : option string;
  isolated : bool;
  env : loc;
  max_output_tokens : option positive
}.

(** Modelled from the spec: the mapping a constructor argument [env]
    stands for (section 4.2, envOverrides), empty when the argument is
    left out. *)
Definition supplied (env : optional_dict) : M (gmap string string) :=
  match env with
  | None => mret ∅
  | Some l => deref l
  end.

(** Modelled from the spec: the same mapping, read off the process. *)
Definition copied (σ : process) (env : optional_dict) : gmap string string :=
  default ∅ (content σ env).

(** Modelled from the spec: the constructor of [ClaudeAgentOptions]
    (section 4.2).  Every field is stored as given, nothing is looked up,
    and the caller's mapping is copied into storage of the instance's
    own instead of being retained. *)
Definition new (api_key base_url : option string) (isolated : bool)
    (env : optional_dict) (max_output_tokens : option positive)
    : M ClaudeAgentOptions :=
  d ← supplied env;
  own ← alloc d;
  mret {| api_key := api_key; base_url := base_url; isolated := isolated;
          env := own; max_output_tokens := max_output_tokens |}.

(** Modelled from the spec: the name of the credential variable
    (section 6), in the spelling of the tests. *)
Definition ANTHROPIC_API_KEY : string := "ANTHROPIC_API_KEY".

End Types.

(** ** The stream close timeout *)

Module Query.
Import Py.

(** Modelled from the spec: milliseconds converted to seconds (section 6);
    a duration in seconds (section 3, StreamCloseTimeout) is a rational
    number.  [claude_agent_sdk/_internal/query.py], which computes with
    durations, is not among the sources. *)
Definition of_milliseconds (n : N) : Q := Z.of_N n # 1000.

(** The value of a decimal digit. *)
Definition digit (c : ascii) : option N :=
  let n := N_of_ascii c in
  if (48 <=? n)%N && (n <=? 57)%N then Some (n - 48)%N else None.

Fixpoint digits (acc : N) (s : string) : option N :=
  match s with
  | EmptyString => Some acc
  | String c rest =>
      match digit c with
      | Some d => digits (10 * acc + d)%N rest
      | None => None
      end
  end.

(** Modelled from the spec: the typed form of a numeric configuration
    value (section 7), here a count of milliseconds read from its decimal
    digits; any other text is malformed. *)
Definition parse_milliseconds (s : string) : option N :=
  match s with
  | EmptyString => None
  | _ => digits 0 s
  end.


(** Modelled from the spec: the name of the stream-close-timeout variable
    (section 6), in the spelling of the tests. *)
Definition CLAUDE_CODE_STREAM_CLOSE_TIMEOUT : string :=
  "CLAUDE_CODE_STREAM_CLOSE_TIMEOUT".


(** Modelled from the spec: the resolution of the stream close timeout
    (sections 4.4, 6 and 7); the code that performs it,
    [claude_agent_sdk/_internal/query.py], is not among the sources.  An
    explicit value wins; otherwise the variable is resolved by
    [resolve_env] with the default the tests pass, read as milliseconds
    and converted to seconds; text that is not a number is an
    [InvalidConfigValue]. *)
Definition resolve_stream_close_timeout (stream_close_timeout : option Q)
    : M Q :=
  match stream_close_timeout with
  | Some t => mret t
  | None =>
      text ← Env.resolve_env CLAUDE_CODE_STREAM_CLOSE_TIMEOUT None "60000";
      match parse_milliseconds text with
      | Some n => mret (of_milliseconds n)
      | None => raise (InvalidConfigValue text)
      end
  end.

End Query.

(** ** The processes of the tests *)

Module Tests.
Import Py.

(** [patch.dict(os.environ, {"MY_VAR": "from_environ"})] over an empty
    environment, with the dictionaries the tests pass at 1, 2, 3 and 4. *)
Definition objects : gmap loc (gmap string string) :=
  {[ 1%positive := {[ "MY_VAR" := "from_options" ]};
     2%positive := {[ "OTHER_VAR" := "irrelevant" ]};
     3%positive := ∅;
     4%positive := {[ "MY_VAR" := "" ]} ]}.

Definition patched : process := Process {[ "MY_VAR" := "from_environ" ]} objects.

(** The environment without [MY_VAR]. *)
Definition cleared : process := Process ∅ objects.

(** [test_multiple_instances_independent], both instances moreover built
    from the caller's dictionary at 1: the instances and the processes
    after the first and after the second construction. *)
Definition options1 : Types.ClaudeAgentOptions :=
  {| Types.api_key := Some "key-instance-1";
     Types.base_url := Some "https://api1.example.com";
     Types.isolated := false; Types.env := 5%positive;
     Types.max_output_tokens := None |}.

Definition options2 : Types.ClaudeAgentOptions :=
  {| Types.api_key := Some "key-instance-2";
     Types.base_url := Some "https://api2.example.com";
     Types.isolated := false; Types.env := 6%positive;
     Types.max_output_tokens := None |}.

Definition built1 : process :=
  Process {[ "MY_VAR" := "from_environ" ]}
          (<[ 5%positive := {[ "MY_VAR" := "from_options" ]} ]> objects).

Definition built2 : process :=
  Process {[ "MY_VAR" := "from_environ" ]}
          (<[ 6%positive := {[ "MY_VAR" := "from_options" ]} ]>
             (<[ 5%positive := {[ "MY_VAR" := "from_options" ]} ]> objects)).

(** [test_backward_compatible_env_dict]: the dictionary the test passes
    as [env], at 1. *)
Definition env_dict : gmap string string :=
  {[ "SOME_OTHER_VAR" := "value"; "ANTHROPIC_API_KEY" := "env-dict-key" ]}.

Definition compat : process := Process ∅ {[ 1%positive := env_dict ]}.


End Tests.

(** ** Further built-ins *)

Module Builtins.
Import Py.


(** [set(os.environ.keys())]. *)
Definition environ_keys : M (gset string) := λ σ, (Ok (dom (os_environ σ)), σ).

(** [os.environ.get(key)], [None] when the variable is not set. *)
Definition environ_lookup (key : string) : M (option string) :=
  λ σ, (Ok (os_environ σ !! key), σ).

End Builtins.

(** ** [tests/test_isolation.py], class [TestEnvironmentIsolation] *)

Module TestEnvironmentIsolation.
Import Py Builtins.

(** [test_no_global_env_mutation_on_options_creation].  The constructor
    call of the test, [ClaudeAgentOptions(api_key="test-key",
    base_url="https://test.com", isolated=True)], is the parameter
    [construct]: the class is not among the sources.  The value is the
    conjunction of the three conditions the test asserts. *)
Definition test_no_global_env_mutation_on_options_creation {T}
    (construct : M T) : M bool :=
  original_keys ← environ_keys;
  options ← construct;
  new_keys ← environ_keys;
  api_key ← environ_lookup "ANTHROPIC_API_KEY";
  base_url ← environ_lookup "ANTHROPIC_BASE_URL";
  mret (bool_decide (original_keys = new_keys)
        && bool_decide (api_key ≠ Some "test-key")
        && bool_decide (base_url ≠ Some "https://test.com")).

(** A process whose environment holds the credential the test uses. *)
Definition ambient_test_key : process :=
  Process {[ "ANTHROPIC_API_KEY" := "test-key" ]} ∅.

End TestEnvironmentIsolation.

(** ** Keys as Python strings

    The embedding above keeps a [str] as the bytes the file-system
    encoding gives it, which is what a name of [os.environ] is.  Not
    every [str] has such bytes.  This layer keeps a [str] as its code
    points, a dictionary under the [str] keys themselves, and
    [os.environ] under the encoded names, so that the step from the one
    to the other, which [os.environ.get] takes, is in the model. *)

Module Unicode.

(** A [str]: the list of its code points. *)
Abbreviation str := (list N).

Definition byte (n : N) : ascii := ascii_of_N n.

(** The bytes of one code point in the file-system encoding, UTF-8 with
    the error handler [surrogateescape]: a surrogate from U+DC80 to
    U+DCFF stands for the single byte 80 to FF, any other surrogate has
    no bytes; numbers above U+10FFFF are no code points. *)
Definition encode_point (c : N) : option (list ascii) :=
  if (c <? 0x80)%N then Some [byte c]
  else if (c <? 0x800)%N then
    Some [byte (0xC0 + c / 0x40); byte (0x80 + c mod 0x40)]
  else if (0xDC80 <=? c)%N && (c <=? 0xDCFF)%N then Some [byte (c - 0xDC00)]
  else if (0xD800 <=? c)%N && (c <=? 0xDFFF)%N then None
  else if (c <? 0x10000)%N then
    Some [byte (0xE0 + c / 0x1000); byte (0x80 + (c / 0x40) mod 0x40);
          byte (0x80 + c mod 0x40)]
  else if (c <? 0x110000)%N then
    Some [byte (0xF0 + c / 0x40000); byte (0x80 + (c / 0x1000) mod 0x40);
          byte (0x80 + (c / 0x40) mod 0x40); byte (0x80 + c mod 0x40)]
  else None.

(** [key.encode(encoding, 'surrogateescape')], the [encodekey] of
    [os.environ]; [None] where Python raises [UnicodeEncodeError]. *)
Fixpoint encode (s : list N) : option string :=
  match s with
  | [] => Some EmptyString
  | c :: rest =>
      match encode_point c, encode rest with
      | Some bytes, Some tail => Some (fold_right String tail bytes)
      | _, _ => None
      end
  end.

(** The [str] of an ASCII literal. *)
Definition text (s : string) : list N := N_of_ascii <$> list_ascii_of_string s.

End Unicode.

Module StrEnv.
Import Unicode.

(** [os.environ] under the encoded names, each with the [str] that reading
    the variable gives, and the dictionaries of the heap under their
    [str] keys. *)
Record process := Process {
  environ : gmap string (list N);
  heap : gmap positive (gmap (list N) (list N))
}.

Inductive exn :=
| TypeError
| KeyError (key : list N)
| UnicodeEncodeError (object : list N)
| DanglingReference (l : positive).

Inductive result (A : Type) :=
| Ok (a : A)
| Raise (e : exn).
Arguments Ok {A} a.
Arguments Raise {A} e.

Definition M (A : Type) : Type := process → result A * process.

Definition ret {A} (a : A) : M A := λ σ, (Ok a, σ).
Definition raise {A} (e : exn) : M A := λ σ, (Raise e, σ).
Definition bind {A B} (m : M A) (k : A → M B) : M B :=
  λ σ, match m σ with
       | (Ok a, σ') => k a σ'
       | (Raise e, σ') => (Raise e, σ')
       end.

#[global] Instance M_ret : MRet M := @ret.
#[global] Instance M_bind : MBind M := λ A B k m, bind m k.

Definition returned {A} (m : M A) (σ : process) : result A := (m σ).1.

Definition deref (l : positive) : M (gmap (list N) (list N)) :=
  λ σ, match heap σ !! l with
       | Some d => (Ok d, σ)
       | None => (Raise (DanglingReference l), σ)
       end.

(** [bool(v)], [key in v] and [v[key]] for [v : dict[str, str] | None]. *)
Definition truthy (v : option positive) : M bool :=
  match v with
  | None => mret false
  | Some l => d ← deref l; mret (bool_decide (d ≠ ∅))
  end.

Definition contains (key : list N) (v : option positive) : M bool :=
  match v with
  | None => raise TypeError
  | Some l => d ← deref l; mret (bool_decide (is_Some (d !! key)))
  end.

Definition getitem (v : option positive) (key : list N) : M (list N) :=
  match v with
  | None => raise TypeError
  | Some l =>
      d ← deref l;
      match d !! key with
      | Some x => mret x
      | None => raise (KeyError key)
      end
  end.

(** [os.environ.get(key, default)]: the key is encoded first, and an
    encoding error is not the [KeyError] that [get] turns into the
    default. *)
Definition environ_get (key default : list N) : M (list N) :=
  λ σ, match encode key with
       | None => (Raise (UnicodeEncodeError key), σ)
       | Some name =>
           (Ok (match environ σ !! name with
                | Some x => x
                | None => default
                end), σ)
       end.

Definition and_then (a b : M bool) : M bool :=
  t ← a; if t : bool then b else mret false.

Definition live (σ : process) (v : option positive) : Prop :=
  match v with
  | None => True
  | Some l => is_Some (heap σ !! l)
  end.

Definition content (σ : process) (v : option positive)
    : option (gmap (list N) (list N)) :=
  l ← v; heap σ !! l.

(** [resolve_env(key, options_env, default)], as in [Env]:
<<
    if options_env and key in options_env:
        return options_env[key]
    return os.environ.get(key, default)
>> *)
Definition resolve_env (key : list N) (options_env : option positive)
    (default : list N) : M (list N) :=
  c ← and_then (truthy options_env) (contains key options_env);
  if c : bool then getitem options_env key else environ_get key default.

(** A process with an empty environment and one dictionary, at 1, whose
    only key is the lone surrogate U+D800. *)
Definition bare : process :=
  Process ∅ {[ 1%positive := {[ [0xD800%N] := text "x" ]} ]}.

End StrEnv.

(** * Properties *)

Import Py.

(** ** Running the resolver *)

Section Resolver.
Import Env.
Implicit Types (K D : string) (v : optional_dict) (σ : process).

Lemma live_content σ v : live σ v → v = None ∨ ∃ l d, v = Some l ∧ heap σ !! l = Some d.
Proof.
  destruct v as [l|]; simpl; [|by left].
  intros [d Hd]. right. by exists l, d.
Qed.

(** One run of [resolve_env] on a well-formed call: it returns what the
    specification's resolver gives on the mappings the arguments denote,
    and it leaves the process as it found it. *)
Lemma resolve_env_run K v D σ :
  live σ v →
  resolve_env K v D σ = (Ok (resolve K (content σ v) (os_environ σ) D), σ).
Proof.
  intros Hlive. destruct (live_content σ v Hlive) as [->|(l & d & -> & Hd)].
  - reflexivity.
  - unfold resolve_env, and_then, truthy, contains, getitem, environ_get, resolve.
    unfold mbind, M_bind, bind, deref, mret, M_ret, ret. simpl.
    rewrite Hd. simpl.
    destruct (decide (d = ∅)) as [->|Hne].
    + rewrite bool_decide_eq_false_2 by (intros H; by apply H).
      by rewrite lookup_empty.
    + rewrite bool_decide_eq_true_2 by done.
      rewrite Hd. simpl.
      destruct (d !! K) as [x|] eqn:HK.
      * rewrite bool_decide_eq_true_2 by (by exists x).
        by rewrite Hd, HK.
      * rewrite bool_decide_eq_false_2 by (by intros [? ?]).
        done.
Qed.

(** Also a call on a stale reference writes nothing. *)
Lemma resolve_env_frame K v D σ : after (resolve_env K v D) σ = σ.
Proof.
  destruct (decide (live σ v)) as [Hlive|Hdead].
  - unfold after. by rewrite resolve_env_run.
  - destruct v as [l|]; simpl in Hdead; [|done].
    apply eq_None_not_Some in Hdead.
    unfold after, resolve_env, and_then, truthy.
    unfold mbind, M_bind, bind, deref. by rewrite Hdead.
Qed.

(** Two processes that agree on the override mapping and on
    [os.environ] give the same result. *)
Lemma resolve_env_agree K v D σ1 σ2 :
  live σ1 v →
  content σ1 v = content σ2 v →
  os_environ σ1 = os_environ σ2 →
  returned (resolve_env K v D) σ1 = returned (resolve_env K v D) σ2.
Proof.
  intros Hlive Hcontent Henv.
  assert (Hlive2 : live σ2 v).
  { destruct v as [l|]; simpl in *; [|done]. by rewrite <- Hcontent. }
  unfold returned. rewrite !resolve_env_run by done. simpl.
  by rewrite Hcontent, Henv.
Qed.



End Resolver.

(** ** The unit tests of [resolve_env] *)

Section UnitTests.
Import Env.

Example test_options_env_wins_over_os_environ :
  returned (resolve_env "MY_VAR" (Some 1%positive) "default_val") Tests.patched
  = Ok "from_options".
Proof. reflexivity. Qed.

Example test_os_environ_fallback :
  returned (resolve_env "MY_VAR" (Some 2%positive) "default_val") Tests.patched
  = Ok "from_environ".
Proof. reflexivity. Qed.

Example test_default_fallback :
  returned (resolve_env "MY_VAR" (Some 2%positive) "default_val") Tests.cleared
  = Ok "default_val".
Proof. reflexivity. Qed.

Example test_none_options_env :
  returned (resolve_env "MY_VAR" None "default_val") Tests.patched
  = Ok "from_environ".
Proof. reflexivity. Qed.

Example test_none_options_env_default_fallback :
  returned (resolve_env "MY_VAR" None "default_val") Tests.cleared
  = Ok "default_val".
Proof. reflexivity. Qed.

Example test_empty_options_env :
  returned (resolve_env "MY_VAR" (Some 3%positive) "default_val") Tests.patched
  = Ok "from_environ".
Proof. reflexivity. Qed.

Example test_empty_string_value_in_options_env :
  returned (resolve_env "MY_VAR" (Some 4%positive) "default_val") Tests.patched
  = Ok "".
Proof. reflexivity. Qed.

(** Without the guard of the condition the subscript would raise. *)
Example getitem_unguarded :
  returned (getitem (Some 2%positive) "MY_VAR") Tests.patched
  = Raise (KeyError "MY_VAR")
  ∧ returned (contains "MY_VAR" None) Tests.patched = Raise TypeError.
Proof. split; reflexivity. Qed.

End UnitTests.

(** ** The resolver's contract *)

Section Contract.
Import Env.
Implicit Types (K D : string) (v : optional_dict) (σ : process).



(** C2, as the code has it: the result of [resolve_env] is a function of
    the key, of the mapping [options_env] denotes, of the default and of
    the content of the process-wide [os.environ], which the function
    reaches by itself; whatever else the process holds does not matter. *)
Theorem resolve_env_determined K v D σ1 σ2 :
  live σ1 v →
  content σ1 v = content σ2 v →
  os_environ σ1 = os_environ σ2 →
  returned (resolve_env K v D) σ1 = returned (resolve_env K v D) σ2.
Proof. apply resolve_env_agree. Qed.

Lemma resolve_env_determined_witness :
  returned (resolve_env "MY_VAR" (Some 2%positive) "default_val") Tests.patched
  = returned (resolve_env "MY_VAR" (Some 2%positive) "default_val")
      (Process {[ "MY_VAR" := "from_environ" ]}
               {[ 2%positive := {[ "OTHER_VAR" := "irrelevant" ]} ]}).
Proof.
  apply resolve_env_determined.
  - by vm_compute; eexists.
  - by vm_compute.
  - reflexivity.
Defined.

(** C2, as the specification has it, fails: two calls with the same key,
    the same override argument and the same default, in processes whose
    heaps are equal, return different values when [os.environ] differs. *)
Lemma resolve_env_reads_os_environ :
  ¬ (∀ K v D σ1 σ2,
       heap σ1 = heap σ2 →
       returned (resolve_env K v D) σ1 = returned (resolve_env K v D) σ2).
Proof.
  intros Hclaim.
  specialize (Hclaim "MY_VAR" None "default_val" Tests.patched Tests.cleared eq_refl).
  vm_compute in Hclaim. discriminate Hclaim.
Qed.

(** C3: a null override argument and an empty override dictionary are
    interchangeable: same result, same final process, for every key,
    environment and default. *)
Theorem resolve_env_none_empty K l D σ :
  heap σ !! l = Some ∅ →
  resolve_env K None D σ = resolve_env K (Some l) D σ.
Proof.
  intros Hempty.
  rewrite (resolve_env_run K None) by done.
  rewrite (resolve_env_run K (Some l)) by (by exists ∅).
  simpl. rewrite Hempty. unfold resolve. simpl.
  by rewrite lookup_empty.
Qed.

Lemma resolve_env_none_empty_witness :
  resolve_env "MY_VAR" None "default_val" Tests.patched
  = resolve_env "MY_VAR" (Some 3%positive) "default_val" Tests.patched.
Proof. apply resolve_env_none_empty. by vm_compute. Defined.

(** C5: a call of [resolve_env] writes nothing: the process after the call
    is the process before it, so the override dictionary and [os.environ]
    hold what they held. *)
Theorem resolve_env_pure K v D σ :
  let σ' := after (resolve_env K v D) σ in
  σ' = σ ∧ content σ' v = content σ v ∧ os_environ σ' = os_environ σ.
Proof. intros σ'. unfold σ'. by rewrite resolve_env_frame. Qed.

End Contract.

(** ** Keys that [os.environ] cannot encode *)

Section StrKeys.
Import Unicode StrEnv.
Implicit Types (key D : list N) (v : option positive) (σ : StrEnv.process).

(** The encoding on an ASCII name, on U+00E9, on the two escaped bytes
    that spell the same name as U+00E9, on the last code point and on
    surrogates. *)
Example encode_examples :
  encode (text "MY_VAR") = Some "MY_VAR"%string
  ∧ encode [0xE9%N] = Some (String (byte 0xC3) (String (byte 0xA9) EmptyString))
  ∧ encode [0xDCC3%N; 0xDCA9%N] = encode [0xE9%N]
  ∧ encode [0x10FFFF%N]
    = Some (String (byte 0xF4) (String (byte 0x8F)
              (String (byte 0xBF) (String (byte 0xBF) EmptyString))))
  ∧ encode [0xDC80%N] = Some (String (byte 0x80) EmptyString)
  ∧ encode [0xD800%N] = None
  ∧ encode [0xDFFF%N] = None.
Proof. repeat split; reflexivity. Qed.

Lemma resolve_env_str_run key v D σ :
  live σ v →
  resolve_env key v D σ
  = (match content σ v ≫= (.!! key) with
     | Some x => Ok x
     | None =>
         match encode key with
         | Some name =>
             Ok (match environ σ !! name with Some a => a | None => D end)
         | None => Raise (UnicodeEncodeError key)
         end
     end, σ).
Proof.
  intros Hlive.
  unfold resolve_env, and_then, truthy, contains, getitem, environ_get.
  destruct v as [l|]; simpl in *.
  - destruct Hlive as [d Hd].
    unfold mbind, M_bind, bind, deref, mret, M_ret, ret. rewrite Hd. simpl.
    destruct (decide (d = ∅)) as [->|Hne].
    + rewrite bool_decide_eq_false_2 by (intros H; by apply H).
      rewrite lookup_empty. by destruct (encode key).
    + rewrite bool_decide_eq_true_2 by done. rewrite Hd. simpl.
      destruct (d !! key) as [x|] eqn:Hkey.
      * rewrite bool_decide_eq_true_2 by (by exists x).
        by rewrite Hd, Hkey.
      * rewrite bool_decide_eq_false_2 by (by intros [? ?]).
        by destruct (encode key).
  - unfold mbind, M_bind, bind, mret, M_ret, ret.
    by destruct (encode key).
Qed.

(** C4, as the code has it: [resolve_env] returns a string, and does not
    raise, for every key that the override dictionary holds and for every
    key that the file-system encoding can encode, as every name of an
    environment variable can be, whatever the override argument (null or
    a dictionary), the environment and the default; such a key that no
    source has yields the default.  For a key that cannot be encoded and
    that the override dictionary does not hold, [os.environ.get] raises
    [UnicodeEncodeError]. *)
Theorem resolve_env_total_on_encodable key v D σ :
  live σ v →
  let O := content σ v ≫= (.!! key) in
  let r := returned (resolve_env key v D) σ in
  (is_Some O ∨ is_Some (encode key) → ∃ s, r = Ok s) ∧
  (O = None → ∀ name, encode key = Some name → environ σ !! name = None →
     r = Ok D) ∧
  (O = None → encode key = None → r = Raise (UnicodeEncodeError key)).
Proof.
  intros Hlive O r. unfold r, returned. rewrite resolve_env_str_run by done.
  fold O. simpl. split; [|split].
  - intros [[x ->]|[name ->]]; [by eexists|].
    destruct O; by eexists.
  - intros -> name -> Habsent. by rewrite Habsent.
  - by intros -> ->.
Qed.

Lemma resolve_env_total_on_encodable_witness :
  returned (resolve_env (text "MY_VAR") (Some 1%positive) (text "default_val")) bare
  = Ok (text "default_val")
  ∧ returned (resolve_env [0xD800%N] (Some 1%positive) (text "d")) bare
    = Ok (text "x")
  ∧ returned (resolve_env [0xDC7F%N] (Some 1%positive) (text "d")) bare
    = Raise (UnicodeEncodeError [0xDC7F%N]).
Proof.
  assert (Hlive : live bare (Some 1%positive)) by (by vm_compute; eexists).
  split; [|split].
  - destruct (resolve_env_total_on_encodable (text "MY_VAR") _ (text "default_val")
                _ Hlive) as (_ & Hdefault & _).
    by apply (Hdefault eq_refl "MY_VAR"%string).
  - destruct (resolve_env_total_on_encodable [0xD800%N] _ (text "d") _ Hlive)
      as (Hreturns & _ & _).
    destruct Hreturns as [s Hs]; [left; by vm_compute; eexists|].
    rewrite Hs. vm_compute in Hs. by injection Hs as <-.
  - destruct (resolve_env_total_on_encodable [0xDC7F%N] _ (text "d") _ Hlive)
      as (_ & _ & Hraises).
    by apply Hraises.
Defined.

(** C4, as the specification has it, fails: the key made of the lone
    surrogate U+D800 is a [str], no source holds it, and the call raises
    [UnicodeEncodeError] instead of returning the default. *)
Lemma resolve_env_raises_on_lone_surrogate :
  ¬ (∀ key v D σ, live σ v → ∃ s, returned (resolve_env key v D) σ = Ok s).
Proof.
  intros Hclaim.
  destruct (Hclaim [0xD800%N] None (text "d") (StrEnv.Process ∅ ∅) I) as [s Hs].
  vm_compute in Hs. discriminate Hs.
Qed.

End StrKeys.

(** ** Construction of the options object *)

Section Options.
Import Env Types.
Implicit Types (a b : option string) (i : bool) (e : optional_dict)
  (m : option positive) (σ : process).

Lemma new_run a b i e m σ :
  live σ e →
  let own := fresh (dom (heap σ)) in
  Types.new a b i e m σ
  = (Ok {| api_key := a; base_url := b; isolated := i; env := own;
           max_output_tokens := m |},
     Process (os_environ σ) (<[own := copied σ e]> (heap σ))).
Proof.
  intros Hlive own.
  unfold Types.new, supplied, alloc, copied.
  unfold mbind, M_bind, bind, deref, mret, M_ret, ret.
  destruct (live_content σ e Hlive) as [->|(l & d & -> & Hd)]; simpl.
  - done.
  - by rewrite Hd.
Qed.

Lemma new_raise a b i e m σ :
  ¬ live σ e → ∃ x, Types.new a b i e m σ = (Raise x, σ).
Proof.
  destruct e as [l|]; simpl; [|done].
  intros Hdead%eq_None_not_Some. exists (DanglingReference l).
  unfold Types.new, supplied. unfold mbind, M_bind, bind, deref.
  by rewrite Hdead.
Qed.

Lemma new_inv a b i e m σ o σ' :
  Types.new a b i e m σ = (Ok o, σ') →
  live σ e ∧
  o = {| api_key := a; base_url := b; isolated := i;
         env := fresh (dom (heap σ)); max_output_tokens := m |} ∧
  σ' = Process (os_environ σ) (<[fresh (dom (heap σ)) := copied σ e]> (heap σ)).
Proof.
  intros Hnew. destruct (decide (live σ e)) as [Hlive|Hdead].
  - rewrite new_run in Hnew by done. by injection Hnew as <- <-.
  - destruct (new_raise a b i e m σ Hdead) as [x Hx]. congruence.
Qed.

Lemma fresh_unallocated σ : heap σ !! fresh (dom (heap σ)) = None.
Proof. apply not_elem_of_dom, is_fresh. Qed.

Lemma live_not_fresh σ e : live σ e → e ≠ Some (fresh (dom (heap σ))).
Proof.
  intros Hlive ->. simpl in Hlive. rewrite fresh_unallocated in Hlive.
  by destruct Hlive.
Qed.

(** Writing to one dictionary leaves every other one as it was. *)
Lemma setitem_other l l' k x σ :
  l ≠ l' → heap (after (setitem l k x) σ) !! l' = heap σ !! l'.
Proof.
  intros Hne. unfold after, setitem.
  destruct (heap σ !! l) as [d|]; simpl; [|done].
  by rewrite lookup_insert_ne.
Qed.

Lemma setitem_environ l k x σ :
  os_environ (after (setitem l k x) σ) = os_environ σ.
Proof. unfold after, setitem. by destruct (heap σ !! l). Qed.

Lemma setitem_live l k x σ :
  is_Some (heap σ !! l) → returned (setitem l k x) σ = Ok ().
Proof. intros [d Hd]. unfold returned, setitem. by rewrite Hd. Qed.

(** The instance [o] sees, after a write to another dictionary, what it
    saw before. *)
Lemma resolved_after_setitem l l' k x K D σ :
  l ≠ l' → is_Some (heap σ !! l') →
  returned (resolve_env K (Some l') D) (after (setitem l k x) σ)
  = returned (resolve_env K (Some l') D) σ.
Proof.
  intros Hne Hl'. symmetry. apply resolve_env_agree; simpl.
  - done.
  - by rewrite setitem_other.
  - by rewrite setitem_environ.
Qed.

End Options.

Section OptionsContract.
Import Env Types.
Implicit Types (a b : option string) (i : bool) (e : optional_dict)
  (m : option positive) (σ : process).

(** C6: constructing a [ClaudeAgentOptions] neither writes nor reads the
    ambient environment: whatever the arguments, [os.environ] has after
    the construction the keys and the values it had before, and the
    instance built and the heap it leaves are the same under any other
    environment. *)
Theorem options_construction_leaves_environ a b i e m σ :
  let σ' := after (Types.new a b i e m) σ in
  os_environ σ' = os_environ σ ∧
  dom (os_environ σ') = dom (os_environ σ) ∧
  ∀ E : gmap string string,
    let τ := Process E (heap σ) in
    returned (Types.new a b i e m) τ = returned (Types.new a b i e m) σ ∧
    heap (after (Types.new a b i e m) τ) = heap σ' ∧
    os_environ (after (Types.new a b i e m) τ) = E.
Proof.
  intros σ'. unfold σ', after, returned, Types.new, supplied, alloc.
  unfold mbind, M_bind, bind, deref, mret, M_ret, ret.
  destruct e as [l|]; simpl; [destruct (heap σ !! l); simpl|]; done.
Qed.

(** C7: two instances constructed one after the other hold their override
    mappings in different objects, neither of them the caller's, also
    when both were built from one and the same caller mapping; a write
    to the mapping of one, or to the caller's, changes neither the
    content of the other's mapping nor anything resolved from it. *)
Theorem options_instances_independent a1 b1 i1 e1 m1 a2 b2 i2 e2 m2 σ o1 σ1 o2 σ2 :
  Types.new a1 b1 i1 e1 m1 σ = (Ok o1, σ1) →
  Types.new a2 b2 i2 e2 m2 σ1 = (Ok o2, σ2) →
  env o1 ≠ env o2 ∧
  e1 ≠ Some (env o1) ∧ e2 ≠ Some (env o2) ∧
  content σ1 (Some (env o1)) = Some (copied σ e1) ∧
  content σ2 (Some (env o2)) = Some (copied σ1 e2) ∧
  ∀ k x,
    (let σ3 := after (setitem (env o1) k x) σ2 in
     returned (setitem (env o1) k x) σ2 = Ok () ∧
     content σ3 (Some (env o2)) = content σ2 (Some (env o2)) ∧
     ∀ K D, returned (resolve_env K (Some (env o2)) D) σ3
            = returned (resolve_env K (Some (env o2)) D) σ2) ∧
    (let σ3 := after (setitem (env o2) k x) σ2 in
     returned (setitem (env o2) k x) σ2 = Ok () ∧
     content σ3 (Some (env o1)) = content σ2 (Some (env o1)) ∧
     ∀ K D, returned (resolve_env K (Some (env o1)) D) σ3
            = returned (resolve_env K (Some (env o1)) D) σ2) ∧
    (∀ l, let σ3 := after (setitem l k x) σ2 in
       (e1 = Some l → content σ3 (Some (env o1)) = content σ2 (Some (env o1))) ∧
       (e2 = Some l → content σ3 (Some (env o2)) = content σ2 (Some (env o2)))).
Proof.
  intros (Hlive1 & -> & ->)%new_inv (Hlive2 & -> & ->)%new_inv. simpl in *.
  set (l1 := fresh (dom (heap σ))) in *.
  set (h1 := <[l1 := copied σ e1]> (heap σ)) in *.
  set (l2 := fresh (dom h1)) in *.
  assert (Hl1 : h1 !! l1 = Some (copied σ e1)) by apply lookup_insert_eq.
  assert (Hl2 : h1 !! l2 = None) by apply not_elem_of_dom, is_fresh.
  assert (Hne : l1 ≠ l2) by congruence.
  assert (He1 : e1 ≠ Some l1) by apply live_not_fresh, Hlive1.
  assert (He2 : e2 ≠ Some l2).
  { apply (live_not_fresh (Process (os_environ σ) h1)), Hlive2. }
  set (σ2 := Process (os_environ σ) (<[l2 := copied (Process (os_environ σ) h1) e2]> h1)).
  assert (H21 : heap σ2 !! l1 = Some (copied σ e1)).
  { simpl. by rewrite lookup_insert_ne. }
  assert (H22 : heap σ2 !! l2 = Some (copied (Process (os_environ σ) h1) e2)).
  { simpl. by rewrite lookup_insert_eq. }
  split; [done|]. split; [done|]. split; [done|]. split; [done|]. split; [done|].
  intros k x. split; [|split].
  - split; [by apply setitem_live; eexists|].
    split; [by apply setitem_other|].
    intros K D. apply resolved_after_setitem; [done|by eexists].
  - split; [by apply setitem_live; eexists|].
    split; [by apply setitem_other|].
    intros K D. apply resolved_after_setitem; [done|by eexists].
  - intros l. split; intros ->; apply setitem_other; congruence.
Qed.

Lemma options_instances_independent_witness :
  Types.new (Some "key-instance-1") (Some "https://api1.example.com") false
    (Some 1%positive) None Tests.patched = (Ok Tests.options1, Tests.built1) ∧
  Types.new (Some "key-instance-2") (Some "https://api2.example.com") false
    (Some 1%positive) None Tests.built1 = (Ok Tests.options2, Tests.built2) ∧
  env Tests.options1 ≠ env Tests.options2 ∧
  returned (resolve_env "MY_VAR" (Some (env Tests.options2)) "default_val")
    (after (setitem (env Tests.options1) "MY_VAR" "changed") Tests.built2)
  = returned (resolve_env "MY_VAR" (Some (env Tests.options2)) "default_val")
      Tests.built2.
Proof.
  assert (H1 : Types.new (Some "key-instance-1") (Some "https://api1.example.com")
                 false (Some 1%positive) None Tests.patched
               = (Ok Tests.options1, Tests.built1)) by (vm_compute; reflexivity).
  assert (H2 : Types.new (Some "key-instance-2") (Some "https://api2.example.com")
                 false (Some 1%positive) None Tests.built1
               = (Ok Tests.options2, Tests.built2)) by (vm_compute; reflexivity).
  split; [exact H1|]. split; [exact H2|].
  destruct (options_instances_independent _ _ _ _ _ _ _ _ _ _ _ _ _ _ _ H1 H2)
    as (Hne & _ & _ & _ & _ & Hwrite).
  split; [exact Hne|].
  destruct (Hwrite "MY_VAR" "changed") as ((_ & _ & Hresolved) & _).
  apply Hresolved.
Defined.

(** C10: an instance built with an explicit credential and with an
    override mapping that has its own entry for the credential variable
    holds both, each as given: [api_key] is the explicit argument, and
    the instance's [env] has the content of the mapping, the conflicting
    entry included; the constructor applies no precedence between them. *)
Theorem options_keep_both_credentials (key : string) b i m l
    (E : gmap string string) (x : string) σ :
  heap σ !! l = Some E →
  E !! ANTHROPIC_API_KEY = Some x →
  ∃ o σ',
    Types.new (Some key) b i (Some l) m σ = (Ok o, σ') ∧
    api_key o = Some key ∧
    content σ' (Some (env o)) = Some E ∧
    returned (getitem (Some (env o)) ANTHROPIC_API_KEY) σ' = Ok x.
Proof.
  intros Hl Hx. eexists _, _.
  split; [apply new_run; by exists E|].
  split; [done|]. simpl.
  assert (Hcopy : copied σ (Some l) = E) by (unfold copied; simpl; by rewrite Hl).
  rewrite Hcopy.
  split; [apply lookup_insert_eq|].
  unfold returned, getitem. unfold mbind, M_bind, bind, deref. simpl.
  by rewrite lookup_insert_eq, Hx.
Qed.

Lemma options_keep_both_credentials_witness :
  ∃ o σ',
    Types.new (Some "explicit-key") None false (Some 1%positive) None Tests.compat
      = (Ok o, σ') ∧
    api_key o = Some "explicit-key" ∧
    content σ' (Some (env o)) = Some Tests.env_dict ∧
    returned (getitem (Some (env o)) ANTHROPIC_API_KEY) σ' = Ok "env-dict-key".
Proof.
  apply (options_keep_both_credentials "explicit-key" None false None 1%positive
           Tests.env_dict "env-dict-key" Tests.compat).
  - by vm_compute.
  - by vm_compute.
Defined.

End OptionsContract.

(** ** The stream close timeout *)

Section Timeout.
Import Env Query.
Implicit Types (n : N) (σ : process).






End Timeout.

Section TimeoutContract.
Import Env Query.
Implicit Types (n : N) (σ : process).



(** A value of the variable that is not a number is reported, not
    replaced by the default. *)
Example stream_close_timeout_malformed :
  returned (resolve_stream_close_timeout None)
    (Process {[ "CLAUDE_CODE_STREAM_CLOSE_TIMEOUT" := "soon" ]} ∅)
  = Raise (InvalidConfigValue "soon").
Proof. reflexivity. Qed.

End TimeoutContract.

(** * Further properties of the code *)

(** ** [resolve_env] and the dictionary it is given *)

Section ResolverFurther.
Import Env Builtins.
Implicit Types (K D : string) (v : optional_dict) (l : loc) (σ : process).

Lemma bind_run {A B} (m : M A) (k : A → M B) σ x σ' :
  m σ = (Ok x, σ') → (m ≫= k) σ = k x σ'.
Proof. intros H. unfold mbind, M_bind, bind. by rewrite H. Qed.

Lemma setitem_run l k x d σ :
  heap σ !! l = Some d →
  setitem l k x σ = (Ok (), Process (os_environ σ) (<[l := <[k := x]> d]> (heap σ))).
Proof. intros Hd. unfold setitem. by rewrite Hd. Qed.

(** X1: [options_env[K] = x] followed by the resolution of [K]: the resolver
    returns [x], the empty string included, whatever [os.environ] holds
    and whatever the default. *)
Theorem resolve_env_after_setitem K x D l σ :
  is_Some (heap σ !! l) →
  returned (_ ← setitem l K x; resolve_env K (Some l) D) σ = Ok x.
Proof.
  intros [d Hd]. unfold returned. unfold mbind, M_bind, bind.
  rewrite (setitem_run _ _ _ d) by done.
  rewrite resolve_env_run by (simpl; rewrite lookup_insert_eq; by eexists).
  simpl. rewrite lookup_insert_eq. unfold resolve. simpl.
  by rewrite lookup_insert_eq.
Qed.

Lemma resolve_env_after_setitem_witness :
  returned (_ ← setitem 3%positive "MY_VAR" ""; resolve_env "MY_VAR" (Some 3%positive) "d")
    Tests.patched = Ok "".
Proof. apply resolve_env_after_setitem. by vm_compute; eexists. Defined.

(** X2: a write under another key does not change what [K] resolves to, also
    when the write is the first one into an empty dictionary and so turns
    the dictionary from false to true in the condition. *)
Theorem resolve_env_setitem_other K K' x D l σ :
  K' ≠ K →
  is_Some (heap σ !! l) →
  returned (_ ← setitem l K' x; resolve_env K (Some l) D) σ
  = returned (resolve_env K (Some l) D) σ.
Proof.
  intros Hne [d Hd]. unfold returned. unfold mbind, M_bind, bind.
  rewrite (setitem_run _ _ _ d) by done.
  rewrite resolve_env_run by (simpl; rewrite lookup_insert_eq; by eexists).
  rewrite resolve_env_run by (by exists d).
  simpl. rewrite lookup_insert_eq, Hd. unfold resolve. simpl.
  by rewrite lookup_insert_ne.
Qed.

Lemma resolve_env_setitem_other_witness :
  returned (_ ← setitem 3%positive "OTHER_VAR" "x";
            resolve_env "MY_VAR" (Some 3%positive) "d") Tests.patched
  = returned (resolve_env "MY_VAR" (Some 3%positive) "d") Tests.patched.
Proof.
  apply resolve_env_setitem_other.
  - by vm_compute.
  - by vm_compute; eexists.
Defined.

(** X3: the resolution of [K] reads the two sources at [K] only: two calls,
    on any two override arguments in any two processes, return the same
    value as soon as the override mappings agree at [K] and the two
    [os.environ] agree at [K].  In particular a dictionary without [K]
    counts as [None]. *)
Theorem resolve_env_local K D v1 v2 σ1 σ2 :
  live σ1 v1 → live σ2 v2 →
  content σ1 v1 ≫= (.!! K) = content σ2 v2 ≫= (.!! K) →
  os_environ σ1 !! K = os_environ σ2 !! K →
  returned (resolve_env K v1 D) σ1 = returned (resolve_env K v2 D) σ2.
Proof.
  intros Hlive1 Hlive2 Hover Hamb. unfold returned.
  rewrite !resolve_env_run by done. simpl. unfold resolve.
  by rewrite Hover, Hamb.
Qed.

Lemma resolve_env_local_witness :
  returned (resolve_env "MY_VAR" (Some 2%positive) "d") Tests.patched
  = returned (resolve_env "MY_VAR" None "d")
      (Process {[ "MY_VAR" := "from_environ"; "PATH" := "/bin" ]} ∅).
Proof.
  apply resolve_env_local.
  - by vm_compute; eexists.
  - by vm_compute.
  - by vm_compute.
  - by vm_compute.
Defined.





End ResolverFurther.

(** ** [test_no_global_env_mutation_on_options_creation] *)

Section Isolation.
Import Builtins TestEnvironmentIsolation.

(** X9: the verdict of the test is a function of the environment the
    constructor leaves: it passes exactly when the set of names is the one
    from before and neither of the two variables holds the value the test
    passed to the constructor; other values are not looked at.  So a
    constructor that writes nothing still fails the test in a process
    whose environment holds [test-key] as the credential from the start. *)
Theorem isolation_test_verdict {T} (construct : M T) (o : T) (σ σ' : process) :
  construct σ = (Ok o, σ') →
  (returned (test_no_global_env_mutation_on_options_creation construct) σ = Ok true
   ↔ dom (os_environ σ') = dom (os_environ σ)
     ∧ os_environ σ' !! "ANTHROPIC_API_KEY" ≠ Some "test-key"
     ∧ os_environ σ' !! "ANTHROPIC_BASE_URL" ≠ Some "https://test.com")
  ∧ (os_environ σ' = os_environ σ →
     os_environ σ !! "ANTHROPIC_API_KEY" = Some "test-key" →
     returned (test_no_global_env_mutation_on_options_creation construct) σ
     = Ok false).
Proof.
  intros Hrun.
  assert (Hval : returned (test_no_global_env_mutation_on_options_creation construct) σ
          = Ok (bool_decide (dom (os_environ σ) = dom (os_environ σ'))
                && bool_decide (os_environ σ' !! "ANTHROPIC_API_KEY" ≠ Some "test-key")
                && bool_decide (os_environ σ' !! "ANTHROPIC_BASE_URL"
                                ≠ Some "https://test.com"))).
  { unfold returned, test_no_global_env_mutation_on_options_creation.
    erewrite (bind_run environ_keys); [|reflexivity].
    erewrite (bind_run construct); [|exact Hrun].
    reflexivity. }
  rewrite Hval. split.
  - split.
    + intros [= Htrue]. apply andb_true_iff in Htrue as [Htrue Hurl].
      apply andb_true_iff in Htrue as [Hdom Hkey].
      apply bool_decide_eq_true in Hdom, Hkey, Hurl. done.
    + intros (Hdom & Hkey & Hurl).
      by rewrite !bool_decide_eq_true_2.
  - intros Henv Hkey. rewrite Henv, Hkey.
    rewrite (bool_decide_eq_false_2 (Some _ ≠ Some _)) by (by intros H; apply H).
    by rewrite andb_false_r.
Qed.

Lemma isolation_test_verdict_witness :
  returned (test_no_global_env_mutation_on_options_creation
              (Types.new (Some "test-key") (Some "https://test.com") true None None))
    ambient_test_key
  = Ok false.
Proof.
  refine (proj2 (isolation_test_verdict
                   (Types.new (Some "test-key") (Some "https://test.com") true None None)
                   _ ambient_test_key _ _) _ _).
  - reflexivity.
  - reflexivity.
  - reflexivity.
Defined.

End Isolation.
